(** * PyForks: the region harvesting pipeline of [trailforks_region.py]

    A shallow embedding of the class [TrailforksRegion]
    (src/PyForks/trailforks_region.py) and the properties of its four
    operations: region validation, the statistics scraper, the trail export
    with its line-break repair, and the paginated ride-log crawl.

    Python [str] values are modelled by [string]; one [ascii] stands for one
    code point below 256.  Python integers are [Z].  The libraries the module
    calls (requests, BeautifulSoup, pandas) are collaborators: what they
    compute from the network is a field of the record [Env], what they
    compute from values the program holds ([re], [int], [round], list
    operations, [pd.concat]) is defined here. *)

From Stdlib Require Import ZArith Ascii String List Bool Lia DecimalString.
From Stdlib Require Import DecimalPos DecimalZ.
From stdpp Require Import base option gmap strings.

Import ListNotations.
Open Scope string_scope.
Open Scope Z_scope.
Open Scope list_scope.

#[local] Arguments String.append !s1 s2 : simpl nomatch.

(** ** Characters and strings *)

Definition code (c : ascii) : Z := Z.of_N (N_of_ascii c).

Definition chr_newline : ascii := ascii_of_nat 10.
Definition chr_quote : ascii := ascii_of_nat 34.
Definition chr_comma : ascii := ascii_of_nat 44.
Definition chr_lt : ascii := ascii_of_nat 60.
Definition chr_gt : ascii := ascii_of_nat 62.
Definition chr_underscore : ascii := ascii_of_nat 95.
Definition chr_plus : ascii := ascii_of_nat 43.
Definition chr_minus : ascii := ascii_of_nat 45.

Definition is_char (c d : ascii) : bool := Ascii.eqb c d.

(** [needle in haystack] on Python strings. *)
Fixpoint py_in (needle haystack : string) : bool :=
  String.prefix needle haystack
  || match haystack with
     | EmptyString => false
     | String _ rest => py_in needle rest
     end.

(** ** The repair pass of the trail export

    [re.sub] with the pattern [[aA-zZ]\n] and a replacement made of a double
    quote and a comma.  The character class [[aA-zZ]] is the union of the single character [a],
    the range [A-z] and the single character [Z]: code points 65 to 122. *)

Definition in_class_aAzZ (c : ascii) : bool :=
  is_char c "a" || ((code "A" <=? code c) && (code c <=? code "z")) || is_char c "Z".

Definition quote_comma : string := String chr_quote (String chr_comma EmptyString).

(** Leftmost, non-overlapping matches, scanned left to right: a match
    consumes both the class character and the line break. *)
Fixpoint re_sub_letter_newline (s : string) : string :=
  match s with
  | EmptyString => EmptyString
  | String c rest =>
      match rest with
      | String n rest' =>
          if in_class_aAzZ c && is_char n chr_newline
          then quote_comma +:+ re_sub_letter_newline rest'
          else String c (re_sub_letter_newline rest)
      | EmptyString => String c EmptyString
      end
  end.

(** ** The number extractor of the statistics scraper

    [re.search] with a pattern made of [>], a group (one character of
    [[0-9]], then any characters, greedily) and [<].  The match starts at the
    leftmost [>] followed by a digit from which the rest of the line still
    holds a [<]; the greedy part stops at a line break and gives back
    characters up to the last [<] of the line.  The group is the digit and
    what the greedy part kept. *)

Definition is_digit (c : ascii) : bool :=
  (code "0" <=? code c) && (code c <=? code "9").

Definition digit_value (c : ascii) : Z := code c - code "0".

(** What the greedy part keeps in front of the [<] that ends the match, if any. *)
Fixpoint greedy_upto_lt (s : string) : option string :=
  match s with
  | EmptyString => None
  | String c rest =>
      if is_char c chr_newline then None
      else match greedy_upto_lt rest with
           | Some kept => Some (String c kept)
           | None => if is_char c chr_lt then Some EmptyString else None
           end
  end.

Fixpoint re_search_number (s : string) : option string :=
  match s with
  | EmptyString => None
  | String c rest =>
      match rest with
      | String d rest' =>
          if is_char c chr_gt && is_digit d
          then match greedy_upto_lt rest' with
               | Some kept => Some (String d kept)
               | None => re_search_number rest
               end
          else re_search_number rest
      | EmptyString => None
      end
  end.

(** [s.replace(",", EmptyString)] *)
Fixpoint remove_commas (s : string) : string :=
  match s with
  | EmptyString => EmptyString
  | String c rest =>
      if is_char c chr_comma then remove_commas rest
      else String c (remove_commas rest)
  end.

(** ** [int(s)] for a string, base ten

    White space is stripped at both ends, a sign may come first, and the
    digits may be grouped by single underscores.  The white space of [str]
    below code point 256: 9 to 13, 28 to 32, 133 and 160. *)

Definition is_space (c : ascii) : bool :=
  let n := code c in
  ((9 <=? n) && (n <=? 13)) || ((28 <=? n) && (n <=? 32)) || (n =? 133) || (n =? 160).

Fixpoint all_space (s : string) : bool :=
  match s with
  | EmptyString => true
  | String c rest => is_space c && all_space rest
  end.

Fixpoint lstrip (s : string) : string :=
  match s with
  | EmptyString => EmptyString
  | String c rest => if is_space c then lstrip rest else s
  end.

(** [need_digit] holds at the start and right after an underscore. *)
Fixpoint int_digits (acc : Z) (need_digit : bool) (s : string) : option Z :=
  match s with
  | EmptyString => if need_digit then None else Some acc
  | String c rest =>
      if is_digit c then int_digits (10 * acc + digit_value c) false rest
      else if is_char c chr_underscore
           then if need_digit then None else int_digits acc true rest
      else if is_space c
           then if need_digit then None
                else if all_space rest then Some acc else None
      else None
  end.

Definition py_int (s : string) : option Z :=
  match lstrip s with
  | EmptyString => None
  | String c rest =>
      if is_char c chr_minus then option_map Z.opp (int_digits 0 true rest)
      else if is_char c chr_plus then int_digits 0 true rest
      else int_digits 0 true (String c rest)
  end.

(** ** [round(n / 30)]

    [n / 30] is the double nearest to the quotient and [round] takes a
    double to the nearest integer, a tie going to the even one.  For a count
    [n] the quotient is a tie exactly when [n mod 30 = 15], where the double
    is exact; elsewhere it is at least one thirtieth away from a tie, far
    more than the error of the division, so the integer computation below
    gives the same result. *)

Definition py_round_div (n d : Z) : Z :=
  let q := n / d in
  let r := n mod d in
  if 2 * r <? d then q
  else if d <? 2 * r then q + 1
  else if Z.even q then q else q + 1.

(** [range(lo, hi)] *)
Definition py_range (lo hi : Z) : list Z :=
  map (fun k => lo + Z.of_nat k) (seq 0 (Z.to_nat (hi - lo))).

(** [str(i)] for an integer *)
Definition py_str_int (i : Z) : string := NilEmpty.string_of_int (Z.to_int i).

(** ** Tables

    A [DataFrame] as the crawl sees it: column labels, row labels and rows of
    cells; a missing cell (NaN) is [None]. *)

Definition cell : Type := option string.

Record DataFrame : Type := mkDataFrame {
  df_columns : list string;
  df_index : list Z;
  df_rows : list (list cell)
}.

Fixpoint mem_string (x : string) (l : list string) : bool :=
  match l with
  | [] => false
  | y :: l' => String.eqb x y || mem_string x l'
  end.

(** [label in df.columns] *)
Definition has_column (label : string) (df : DataFrame) : bool :=
  mem_string label (df_columns df).

Fixpoint index_of (x : string) (l : list string) : option nat :=
  match l with
  | [] => None
  | y :: l' => if String.eqb x y then Some O else option_map S (index_of x l')
  end.

(** The columns of the frames in order of first appearance. *)
Definition union_columns (dfs : list DataFrame) : list string :=
  fold_left
    (fun acc df =>
       fold_left (fun acc' c => if mem_string c acc' then acc' else acc' ++ [c])
                 (df_columns df) acc)
    dfs [].

(** A row of a frame with columns [src] laid out along the columns [dst]. *)
Definition reindex_row (src dst : list string) (row : list cell) : list cell :=
  map (fun c => match index_of c src with
                | Some i => nth i row None
                | None => None
                end) dst.

Definition concat_rows (cols : list string) (dfs : list DataFrame) : list (list cell) :=
  flat_map (fun df => map (reindex_row (df_columns df) cols) (df_rows df)) dfs.

(** [pd.concat(dfs, axis=0, ignore_index=True)]: rows in the order of the
    list, columns by label, row labels replaced by 0, 1, 2, ...  An empty
    list raises, which is [None] here. *)
Definition pd_concat (dfs : list DataFrame) : option DataFrame :=
  match dfs with
  | [] => None
  | _ :: _ =>
      let cols := union_columns dfs in
      let rows := concat_rows cols dfs in
      Some {| df_columns := cols;
              df_index := py_range 0 (Z.of_nat (length rows));
              df_rows := rows |}
  end.

(** ** The outside world *)

Inductive exn : Type :=
| IndexError
| AttributeError
| ValueError
| TypeError
| KeyError
| RemoteError (msg : string).

Inductive result (A : Type) : Type :=
| Ok (a : A)
| Err (e : exn).
Arguments Ok {A} a.
Arguments Err {A} e.

(** What the collaborators answer.  [requests_get uri] is the [text] of
    [requests.get(uri)], [session_get uri] that of the authenticated
    session's [get], [read_html uri] is [pd.read_html(uri, index_col=None,
    header=0)]; each may raise.  [find_all_div page] is the list of [str] of
    the elements that [BeautifulSoup(page).find_all] gives for [div] with
    class [col-2 center], [find_all_li data] the same for [li]; [to_csv] is
    [DataFrame.to_csv]. *)
Record Env : Type := mkEnv {
  requests_get : string -> result string;
  session_get : string -> result string;
  read_html : string -> result (list DataFrame);
  find_all_div : string -> list string;
  find_all_li : string -> list string;
  to_csv : DataFrame -> string
}.

Inductive Request : Type :=
| ReqGet (uri : string)
| SessionGet (uri : string)
| ReadHtml (uri : string).

(** What a run leaves behind: the lines printed, the requests issued in
    order, the updates of the progress bar and the files. *)
Record World : Type := mkWorld {
  w_stdout : list string;
  w_requests : list Request;
  w_pbar : list Z;
  w_files : gmap string string
}.

(** A call returns, raises an exception or ends the process ([exit]). *)
Inductive outcome (A : Type) : Type :=
| Returned (a : A)
| Raised (e : exn)
| Exited (status : Z).
Arguments Returned {A} a.
Arguments Raised {A} e.
Arguments Exited {A} status.

Definition M (A : Type) : Type := World -> outcome A * World.

Definition ret {A} (a : A) : M A := fun w => (Returned a, w).

Definition bind {A B} (m : M A) (k : A -> M B) : M B :=
  fun w =>
    match m w with
    | (Returned a, w') => k a w'
    | (Raised e, w') => (Raised e, w')
    | (Exited s, w') => (Exited s, w')
    end.

Declare Scope py_scope.
Delimit Scope py_scope with py.
Notation "x <- m ;; k" := (bind m (fun x => k))
  (at level 100, m at next level, right associativity) : py_scope.
Notation "m ;;; k" := (bind m (fun _ => k))
  (at level 100, right associativity) : py_scope.
Open Scope py_scope.

Definition raise {A} (e : exn) : M A := fun w => (Raised e, w).

Definition py_exit {A} (status : Z) : M A := fun w => (Exited status, w).

Definition lift_result {A} (r : result A) : M A :=
  match r with
  | Ok a => ret a
  | Err e => raise e
  end.

Definition log_request (q : Request) : M unit :=
  fun w => (Returned tt,
            {| w_stdout := w_stdout w; w_requests := w_requests w ++ [q];
               w_pbar := w_pbar w; w_files := w_files w |}).

Definition print (line : string) : M unit :=
  fun w => (Returned tt,
            {| w_stdout := w_stdout w ++ [line]; w_requests := w_requests w;
               w_pbar := w_pbar w; w_files := w_files w |}).

Definition pbar_update (n : Z) : M unit :=
  fun w => (Returned tt,
            {| w_stdout := w_stdout w; w_requests := w_requests w;
               w_pbar := w_pbar w ++ [n]; w_files := w_files w |}).

(** [open(path, "w").write(content)] *)
Definition write_file (path content : string) : M unit :=
  fun w => (Returned tt,
            {| w_stdout := w_stdout w; w_requests := w_requests w;
               w_pbar := w_pbar w; w_files := <[path := content]> (w_files w) |}).

Definition do_requests_get (env : Env) (uri : string) : M string :=
  log_request (ReqGet uri) ;;; lift_result (requests_get env uri).

Definition do_session_get (env : Env) (uri : string) : M string :=
  log_request (SessionGet uri) ;;; lift_result (session_get env uri).

Definition do_read_html (env : Env) (uri : string) : M (list DataFrame) :=
  log_request (ReadHtml uri) ;;; lift_result (read_html env uri).

(** ** class TrailforksRegion *)

Record Self : Type := mkSelf { region : string }.

Section TrailforksRegion.

Variable env : Env.
Variable self : Self.

Definition region_uri : string :=
  "https://www.trailforks.com/region/" +:+ region self.

Definition non_existant : string := "<title>Error</title>".

Definition is_valid_region : M bool :=
  text <- do_requests_get env region_uri ;;
  if py_in non_existant text then ret false else ret true.

Definition invalid_region_message : string :=
  "[!] " +:+ region self +:+ " is not a valid Trailforks Region.".

Definition check_region : M unit :=
  valid <- is_valid_region ;;
  if negb valid
  then print invalid_region_message ;;; py_exit 1
  else ret tt.

Definition trail_export_uri (region_id : string) : string :=
  "https://www.trailforks.com/tools/trailspreadsheet_csv/?cols=trailid,title,aka,activitytype,difficulty,status,condition,region_title,rid,difficulty_system,trailtype,usage,direction,season,unsanctioned,hidden,rating,ridden,total_checkins,total_reports,total_photos,total_videos,faved,views,global_rank,created,land_manager,closed,wet_weather,distance,time,alt_change,alt_max,alt_climb,alt_descent,grade,dst_climb,dst_descent,dst_flat,alias,inventory_exclude,trail_association,sponsors,builders,maintainers&rid="
  +:+ region_id.

Definition trail_listing_path (output_path : string) : string :=
  output_path +:+ "/" +:+ region self +:+ "_trail_listing.csv".

Definition download_all_region_trails (region_id output_path : string) : M unit :=
  check_region ;;;
  raw_csv_data <- do_session_get env (trail_export_uri region_id) ;;
  let clean_data := re_sub_letter_newline raw_csv_data in
  write_file (trail_listing_path output_path) clean_data.

(** *** [__get_region_info] *)

Definition region_vars : list string :=
  ["total_ridelogs"; "unique_riders"; "trails_ridden"; "average_trails_per_ride"].

Definition region_info_init : gmap string (option Z) :=
  <["total_ridelogs" := None]>
    (<["unique_riders" := None]>
       (<["trails_ridden" := None]>
          (<["average_trails_per_ride" := None]> ∅))).

(** The right-hand side of the assignment in the loop: [re.search] may give
    [None], whose [groups] raises AttributeError; [int] may raise
    ValueError. *)
Definition parse_item (item : string) : result Z :=
  match re_search_number item with
  | None => Err AttributeError
  | Some group =>
      match py_int (remove_commas group) with
      | None => Err ValueError
      | Some v => Ok v
      end
  end.

(** [for i, item in enumerate(list_items)]: the value is computed first,
    then the key [region_vars[i]] is looked up, then the entry is stored. *)
Fixpoint fill_region_info (i : nat) (list_items : list string)
    (region_info : gmap string (option Z)) : result (gmap string (option Z)) :=
  match list_items with
  | [] => Ok region_info
  | item :: rest =>
      match parse_item item with
      | Err e => Err e
      | Ok v =>
          match nth_error region_vars i with
          | None => Err IndexError
          | Some key => fill_region_info (S i) rest (<[key := Some v]> region_info)
          end
      end
  end.

Definition region_stats_uri : string :=
  "https://www.trailforks.com/region/" +:+ region self +:+ "/ridelogstats/".

Definition get_region_info : M (gmap string (option Z)) :=
  page <- do_requests_get env region_stats_uri ;;
  match find_all_div env page with
  | [] => raise IndexError
  | data :: _ =>
      let list_items := find_all_li env data in
      lift_result (fill_region_info 0 list_items region_info_init)
  end.

(** *** [download_all_region_ridelogs] *)

Definition ridelog_uri (i : Z) : string :=
  "https://www.trailforks.com/region/" +:+ region self
  +:+ "/ridelogs/?viewMode=table&page=" +:+ py_str_int i.

(** The inner [for potential_df in tmp_df] with its [append]. *)
Definition append_non_city (tmp_df dataframes_list : list DataFrame) : list DataFrame :=
  fold_left
    (fun acc potential_df =>
       if negb (has_column "city" potential_df) then acc ++ [potential_df] else acc)
    tmp_df dataframes_list.

(** The body of the [try] for page [i].  Both statements that can raise,
    [pd.read_html] and [tmp_df[0]], come before any [append]. *)
Definition ridelog_page (i : Z) (dataframes_list : list DataFrame) : M (list DataFrame) :=
  tmp_df <- do_read_html env (ridelog_uri i) ;;
  dataframes_list' <-
    (if (2 <=? length tmp_df)%nat
     then ret (append_non_city tmp_df dataframes_list)
     else match tmp_df with
          | [] => raise IndexError
          | good_df :: _ => ret (dataframes_list ++ [good_df])
          end) ;;
  pbar_update 1 ;;;
  ret dataframes_list'.

(** [for i in range(1, total_pages + 1)] with [except Exception: break].
    [exit] is not an [Exception] and would pass through. *)
Fixpoint crawl_pages (pages : list Z) (dataframes_list : list DataFrame)
    : M (list DataFrame) :=
  match pages with
  | [] => ret dataframes_list
  | i :: rest =>
      fun w =>
        match ridelog_page i dataframes_list w with
        | (Returned dataframes_list', w') => crawl_pages rest dataframes_list' w'
        | (Raised _, w') => (pbar_update 1 ;;; ret dataframes_list) w'
        | (Exited s, w') => (Exited s, w')
        end
  end.

Definition scraped_riders_path (output_path : string) : string :=
  output_path +:+ "/" +:+ region self +:+ "_scraped_riders.csv".

Definition total_pages_of (region_info : gmap string (option Z)) : M Z :=
  match region_info !! "total_ridelogs" with
  | Some (Some n) => ret (py_round_div n 30)
  | Some None => raise TypeError
  | None => raise KeyError
  end.

Definition download_all_region_ridelogs (output_path : string) : M unit :=
  check_region ;;;
  region_info <- get_region_info ;;
  total_pages <- total_pages_of region_info ;;
  dataframes_list <- crawl_pages (py_range 1 (total_pages + 1)) [] ;;
  match pd_concat dataframes_list with
  | None => raise ValueError
  | Some df => write_file (scraped_riders_path output_path) (to_csv env df)
  end.

End TrailforksRegion.

(** ** Specification vocabulary *)

(** [needle] occurs in [haystack]. *)
Definition occurs_in (needle haystack : string) : Prop :=
  exists pre post, haystack = pre +:+ needle +:+ post.

(** The disambiguation of one page: with two tables or more, those without
    a city column; otherwise the first one. *)
Definition selected_tables (tmp_df : list DataFrame) : list DataFrame :=
  if (2 <=? length tmp_df)%nat
  then List.filter (fun df => negb (has_column "city" df)) tmp_df
  else firstn 1 tmp_df.

(** The world after more lines, requests and progress updates, the files
    untouched. *)
Definition add_logs (out : list string) (reqs : list Request) (pb : list Z)
    (w : World) : World :=
  {| w_stdout := w_stdout w ++ out;
     w_requests := w_requests w ++ reqs;
     w_pbar := w_pbar w ++ pb;
     w_files := w_files w |}.

Definition set_file (path content : string) (w : World) : World :=
  {| w_stdout := w_stdout w; w_requests := w_requests w;
     w_pbar := w_pbar w; w_files := <[path := content]> (w_files w) |}.

(** A computation that only reads the collaborators and extends the logs:
    its outcome and what it logs do not depend on the world it starts in. *)
Definition logs_only {A} (m : M A) : Prop :=
  exists o out reqs pb, forall w, m w = (o, add_logs out reqs pb w).

Definition write_opt (path : string) (content : option string) (w : World) : World :=
  match content with
  | Some c => set_file path c w
  | None => w
  end.

(** A computation that extends the logs and then writes the file [path] at
    most once, and always when it returns; what it logs and writes does not
    depend on the world it starts in. *)
Definition writes_at_most {A} (path : string) (m : M A) : Prop :=
  exists o out reqs pb content,
    (forall w, m w = (o, write_opt path content (add_logs out reqs pb w))) /\
    (forall a, o = Returned a -> is_Some content).

(** The region page answers and does not carry the error title; the
    statistics page answers, holds the marked container and its items give
    [n] ride logs. *)
Definition crawl_ready (env : Env) (self : Self) (n : Z) : Prop :=
  exists body page data more info,
    requests_get env (region_uri self) = Ok body /\
    py_in non_existant body = false /\
    requests_get env (region_stats_uri self) = Ok page /\
    find_all_div env page = data :: more /\
    fill_region_info 0 (find_all_li env data) region_info_init = Ok info /\
    info !! "total_ridelogs" = Some (Some n).


Fixpoint no_newline (s : string) : bool :=
  match s with
  | EmptyString => true
  | String c rest => negb (is_char c chr_newline) && no_newline rest
  end.


(** The last two statements of the crawl: [pd.concat], then [to_csv]. *)
Definition concat_and_write (env : Env) (self : Self) (output_path : string)
    (dataframes_list : list DataFrame) : M unit :=
  match pd_concat dataframes_list with
  | None => raise ValueError
  | Some df => write_file (scraped_riders_path self output_path) (to_csv env df)
  end.


(** ** Sample regions

    Small worlds on which the statements below are instantiated. *)

Definition nl : string := String chr_newline EmptyString.

Definition demo_self : Self := {| region := "demo" |}.

Definition demo_world : World :=
  {| w_stdout := []; w_requests := []; w_pbar := []; w_files := ∅ |}.

Fixpoint join_with (sep : string) (l : list string) : string :=
  match l with
  | [] => EmptyString
  | [x] => x
  | x :: l' => x +:+ sep +:+ join_with sep l'
  end.

Definition show_cell (c : cell) : string :=
  match c with Some s => s | None => EmptyString end.

(** A plain serializer: a header line, then one line per row, each led by
    its row label. *)
Definition demo_to_csv (df : DataFrame) : string :=
  join_with "," (EmptyString :: df_columns df) +:+ nl +:+
  String.concat EmptyString
    (map (fun ir => join_with "," (py_str_int (fst ir) :: map show_cell (snd ir)) +:+ nl)
         (combine (df_index df) (df_rows df))).

(** The region [demo]: its page is [region_page], the container of its
    statistics page holds [items], ride-log page [i] answers [pages i] for
    [i] up to 40, and the export answers [export]. *)
Definition demo_env (region_page : string) (items : list string)
    (pages : Z -> result (list DataFrame)) (export : string) : Env :=
  {| requests_get := fun uri =>
       if String.eqb uri (region_uri demo_self) then Ok region_page
       else if String.eqb uri (region_stats_uri demo_self) then Ok "stats"
       else Err (RemoteError "not found");
     session_get := fun _ => Ok export;
     read_html := fun uri =>
       match List.find (fun i => String.eqb uri (ridelog_uri demo_self i)) (py_range 1 41) with
       | Some i => pages i
       | None => Err (RemoteError "not found")
       end;
     find_all_div := fun page => if String.eqb page "stats" then ["container"] else [];
     find_all_li := fun _ => items;
     to_csv := demo_to_csv |}.

Definition demo_items (total : string) : list string :=
  ["<li>" +:+ total +:+ "</li>"; "<li>6,789</li>"; "<li>100</li>"; "<li>3</li>"].





Definition ride_columns : list string := ["rider"; "trail"].

Definition ride_table (first count : Z) : DataFrame :=
  {| df_columns := ride_columns;
     df_index := py_range 0 count;
     df_rows := map (fun k => [Some ("rider" +:+ py_str_int k); Some "trail"])
                    (py_range first (first + count)) |}.

Definition city_table : DataFrame :=
  {| df_columns := ["city"; "rides"];
     df_index := [0];
     df_rows := [[Some "Boise"; Some "4"]] |}.

Definition no_tables : exn := ValueError.

Definition demo_title : string := "<html><title>Demo</title></html>".


(** Every page has one table of 30 rows. *)
Definition full_pages (i : Z) : result (list DataFrame) :=
  Ok [ride_table (30 * (i - 1)) 30].

Definition demo_info (total : Z) : gmap string (option Z) :=
  <["total_ridelogs" := Some total]>
    (<["unique_riders" := Some 6789]>
       (<["trails_ridden" := Some 100]>
          (<["average_trails_per_ride" := Some 3]> ∅))).

(** ** Vocabulary for the repair pass and the scraper *)

(** Some code point from 65 to 122 is directly followed by a line break. *)
Fixpoint has_letter_break (s : string) : bool :=
  match s with
  | EmptyString => false
  | String c rest =>
      match rest with
      | String n _ =>
          ((65 <=? code c) && (code c <=? 122) && (code n =? 10))
          || has_letter_break rest
      | EmptyString => false
      end
  end.

(** No [<] before the end of the first line of [s]. *)
Fixpoint line_has_no_lt (s : string) : bool :=
  match s with
  | EmptyString => true
  | String c rest =>
      if is_char c chr_newline then true
      else negb (is_char c chr_lt) && line_has_no_lt rest
  end.

(** The files of [w'] are those of [w], except possibly [path]. *)
Definition only_file_changed (path : string) (w w' : World) : Prop :=
  forall other, other <> path -> w_files w' !! other = w_files w !! other.

(** A record of region statistics: exactly the four names, each holding
    [None] or an integer that is not negative. *)
Definition record_ok (info : gmap string (option Z)) : Prop :=
  (forall key, is_Some (info !! key) <-> In key region_vars) /\
  (forall key v, info !! key = Some (Some v) -> 0 <= v).


(** ** Strings *)

Lemma prefix_spec (p s : string) :
  String.prefix p s = true <-> exists post, s = p +:+ post.
Proof.
  revert s. induction p as [|c p IH]; intros s; simpl.
  - split; [intros _; exists s; reflexivity | intros _; destruct s; reflexivity].
  - destruct s as [|d s]; simpl.
    + split; [discriminate | intros [post H]; discriminate].
    + destruct (Ascii.ascii_dec c d) as [->|Hne].
      * rewrite IH. split; intros [post H]; exists post; simpl in *; congruence.
      * split; [discriminate | intros [post H]; simpl in H; congruence].
Qed.

Lemma py_in_nil (needle : string) :
  py_in needle EmptyString = String.prefix needle EmptyString.
Proof. simpl. apply orb_false_r. Qed.

Lemma py_in_cons (needle : string) (c : ascii) (h : string) :
  py_in needle (String c h) = String.prefix needle (String c h) || py_in needle h.
Proof. reflexivity. Qed.

Lemma py_in_spec (needle haystack : string) :
  py_in needle haystack = true <-> occurs_in needle haystack.
Proof.
  unfold occurs_in. induction haystack as [|c h IH].
  - rewrite py_in_nil, prefix_spec. split.
    + intros [post H]. exists EmptyString, post. exact H.
    + intros [pre [post H]]. destruct pre; simpl in H; [eauto | discriminate].
  - rewrite py_in_cons, orb_true_iff, prefix_spec, IH. split.
    + intros [[post H] | [pre [post H]]].
      * exists EmptyString, post. exact H.
      * exists (String c pre), post. simpl. congruence.
    + intros [pre [post H]]. destruct pre as [|d pre]; simpl in H.
      * left. eauto.
      * right. exists pre, post. congruence.
Qed.

(** ** The monad and the logs *)

Lemma add_logs_nil (w : World) : add_logs [] [] [] w = w.
Proof. destruct w. unfold add_logs. simpl. rewrite !app_nil_r. reflexivity. Qed.

Lemma add_logs_add (o1 o2 : list string) (r1 r2 : list Request) (p1 p2 : list Z)
    (w : World) :
  add_logs o2 r2 p2 (add_logs o1 r1 p1 w) = add_logs (o1 ++ o2) (r1 ++ r2) (p1 ++ p2) w.
Proof. unfold add_logs. simpl. rewrite !app_assoc. reflexivity. Qed.

Lemma log_request_run (q : Request) (w : World) :
  log_request q w = (Returned tt, add_logs [] [q] [] w).
Proof. unfold log_request, add_logs. rewrite !app_nil_r. reflexivity. Qed.

Lemma print_run (line : string) (w : World) :
  print line w = (Returned tt, add_logs [line] [] [] w).
Proof. unfold print, add_logs. rewrite !app_nil_r. reflexivity. Qed.

Lemma pbar_update_run (n : Z) (w : World) :
  pbar_update n w = (Returned tt, add_logs [] [] [n] w).
Proof. unfold pbar_update, add_logs. rewrite !app_nil_r. reflexivity. Qed.

Lemma write_file_run (path content : string) (w : World) :
  write_file path content w = (Returned tt, set_file path content w).
Proof. reflexivity. Qed.

Lemma bind_returned {A B} (m : M A) (k : A -> M B) (w w' : World) (a : A) :
  m w = (Returned a, w') -> bind m k w = k a w'.
Proof. intros H. unfold bind. rewrite H. reflexivity. Qed.

Lemma bind_raised {A B} (m : M A) (k : A -> M B) (w w' : World) (e : exn) :
  m w = (Raised e, w') -> bind m k w = (Raised e, w').
Proof. intros H. unfold bind. rewrite H. reflexivity. Qed.

Lemma bind_exited {A B} (m : M A) (k : A -> M B) (w w' : World) (s : Z) :
  m w = (Exited s, w') -> bind m k w = (Exited s, w').
Proof. intros H. unfold bind. rewrite H. reflexivity. Qed.

Lemma logged_call_run {A} (q : Request) (r : result A) (w : World) :
  (log_request q ;;; lift_result r) w =
  (match r with Ok a => Returned a | Err e => Raised e end, add_logs [] [q] [] w).
Proof.
  rewrite (bind_returned _ _ _ _ _ (log_request_run q w)).
  destruct r; reflexivity.
Qed.

Lemma logs_only_ret {A} (a : A) : logs_only (ret a).
Proof. exists (Returned a), [], [], []. intros w. rewrite add_logs_nil. reflexivity. Qed.

Lemma logs_only_raise {A} (e : exn) : logs_only (@raise A e).
Proof. exists (Raised e), [], [], []. intros w. rewrite add_logs_nil. reflexivity. Qed.

Lemma logs_only_exit {A} (s : Z) : logs_only (@py_exit A s).
Proof. exists (Exited s), [], [], []. intros w. rewrite add_logs_nil. reflexivity. Qed.

Lemma logs_only_lift_result {A} (r : result A) : logs_only (lift_result r).
Proof. destruct r; [apply logs_only_ret | apply logs_only_raise]. Qed.

Lemma logs_only_log_request (q : Request) : logs_only (log_request q).
Proof. exists (Returned tt), [], [q], []. apply log_request_run. Qed.

Lemma logs_only_print (line : string) : logs_only (print line).
Proof. exists (Returned tt), [line], [], []. apply print_run. Qed.

Lemma logs_only_pbar_update (n : Z) : logs_only (pbar_update n).
Proof. exists (Returned tt), [], [], [n]. apply pbar_update_run. Qed.

Lemma logs_only_bind {A B} (m : M A) (k : A -> M B) :
  logs_only m -> (forall a, logs_only (k a)) -> logs_only (bind m k).
Proof.
  intros (o & out & reqs & pb & Hm) Hk. destruct o as [a | e | s].
  - destruct (Hk a) as (o' & out' & reqs' & pb' & Hka).
    exists o', (out ++ out'), (reqs ++ reqs'), (pb ++ pb'). intros w.
    rewrite (bind_returned _ _ _ _ _ (Hm w)), Hka. now rewrite add_logs_add.
  - exists (Raised e), out, reqs, pb. intros w. apply bind_raised, Hm.
  - exists (Exited s), out, reqs, pb. intros w. apply bind_exited, Hm.
Qed.

Create HintDb logs.

#[local] Hint Resolve logs_only_ret logs_only_raise logs_only_exit
  logs_only_lift_result logs_only_log_request logs_only_print
  logs_only_pbar_update : logs.

Ltac logs_only_tac :=
  repeat first
    [ apply logs_only_bind; [ | intros ? ]
    | solve [ auto with logs ]
    | match goal with
      | |- logs_only (if ?b then _ else _) => destruct b
      | |- logs_only (match ?x with _ => _ end) => destruct x
      end ].

Section RunLemmas.

Variable env : Env.
Variable self : Self.

Lemma logs_only_check_region : logs_only (check_region env self).
Proof. unfold check_region, is_valid_region, do_requests_get. logs_only_tac. Qed.

Lemma logs_only_get_region_info : logs_only (get_region_info env self).
Proof. unfold get_region_info, do_requests_get. logs_only_tac. Qed.

Lemma logs_only_total_pages_of (info : gmap string (option Z)) :
  logs_only (total_pages_of info).
Proof. unfold total_pages_of. logs_only_tac. Qed.

Lemma logs_only_ridelog_page (i : Z) (acc : list DataFrame) :
  logs_only (ridelog_page env self i acc).
Proof. unfold ridelog_page, do_read_html. logs_only_tac. Qed.

Lemma logs_only_crawl_pages (pages : list Z) (acc : list DataFrame) :
  logs_only (crawl_pages env self pages acc).
Proof.
  revert acc. induction pages as [|i rest IH]; intros acc; simpl.
  - apply logs_only_ret.
  - destruct (logs_only_ridelog_page i acc) as (o & out & reqs & pb & Hp).
    destruct o as [acc' | e | s].
    + destruct (IH acc') as (o' & out' & reqs' & pb' & Hrest).
      exists o', (out ++ out'), (reqs ++ reqs'), (pb ++ pb'). intros w.
      rewrite Hp, Hrest. now rewrite add_logs_add.
    + exists (Returned acc), (out ++ []), (reqs ++ []), (pb ++ [1]). intros w.
      rewrite Hp. rewrite (bind_returned _ _ _ _ _ (pbar_update_run 1 _)).
      unfold ret. now rewrite add_logs_add.
    + exists (Exited s), out, reqs, pb. intros w. now rewrite Hp.
Qed.

End RunLemmas.

(** ** What each method does on answers of a given shape *)

Section Runs.

Variable env : Env.
Variable self : Self.

Lemma is_valid_region_run (body : string) (w : World) :
  requests_get env (region_uri self) = Ok body ->
  is_valid_region env self w =
  (Returned (negb (py_in non_existant body)),
   add_logs [] [ReqGet (region_uri self)] [] w).
Proof.
  intros Hget. unfold is_valid_region, do_requests_get.
  erewrite bind_returned by (rewrite logged_call_run, Hget; reflexivity).
  destruct (py_in non_existant body); reflexivity.
Qed.

Lemma is_valid_region_fails (e : exn) (w : World) :
  requests_get env (region_uri self) = Err e ->
  is_valid_region env self w =
  (Raised e, add_logs [] [ReqGet (region_uri self)] [] w).
Proof.
  intros Hget. unfold is_valid_region, do_requests_get.
  erewrite bind_raised by (rewrite logged_call_run, Hget; reflexivity).
  reflexivity.
Qed.

Lemma check_region_valid (body : string) (w : World) :
  requests_get env (region_uri self) = Ok body ->
  py_in non_existant body = false ->
  check_region env self w =
  (Returned tt, add_logs [] [ReqGet (region_uri self)] [] w).
Proof.
  intros Hget Hin. unfold check_region.
  erewrite bind_returned by (apply is_valid_region_run, Hget).
  rewrite Hin. reflexivity.
Qed.

Lemma check_region_invalid (body : string) (w : World) :
  requests_get env (region_uri self) = Ok body ->
  py_in non_existant body = true ->
  check_region env self w =
  (Exited 1, add_logs [invalid_region_message self] [ReqGet (region_uri self)] [] w).
Proof.
  intros Hget Hin. unfold check_region.
  erewrite bind_returned by (apply is_valid_region_run, Hget).
  rewrite Hin. simpl.
  erewrite bind_returned by apply print_run.
  unfold py_exit. rewrite add_logs_add. reflexivity.
Qed.

Lemma get_region_info_run (page data : string) (more : list string) (w : World) :
  requests_get env (region_stats_uri self) = Ok page ->
  find_all_div env page = data :: more ->
  get_region_info env self w =
  (match fill_region_info 0 (find_all_li env data) region_info_init with
   | Ok info => Returned info
   | Err e => Raised e
   end,
   add_logs [] [ReqGet (region_stats_uri self)] [] w).
Proof.
  intros Hget Hdiv. unfold get_region_info, do_requests_get.
  erewrite bind_returned by (rewrite logged_call_run, Hget; reflexivity).
  rewrite Hdiv. destruct (fill_region_info _ _ _); reflexivity.
Qed.

Lemma append_non_city_filter (tmp_df acc : list DataFrame) :
  append_non_city tmp_df acc =
  acc ++ List.filter (fun df => negb (has_column "city" df)) tmp_df.
Proof.
  unfold append_non_city. revert acc.
  induction tmp_df as [|df rest IH]; intros acc; simpl.
  - now rewrite app_nil_r.
  - rewrite IH. destruct (negb (has_column "city" df)); simpl.
    + now rewrite <- app_assoc.
    + reflexivity.
Qed.

(** A page that answers with at least one table. *)
Lemma ridelog_page_ok (i : Z) (tables acc : list DataFrame) (w : World) :
  read_html env (ridelog_uri self i) = Ok tables ->
  tables <> [] ->
  ridelog_page env self i acc w =
  (Returned (acc ++ selected_tables tables),
   add_logs [] [ReadHtml (ridelog_uri self i)] [1] w).
Proof.
  intros Hread Hne. unfold ridelog_page, do_read_html.
  erewrite bind_returned by (rewrite logged_call_run, Hread; reflexivity).
  unfold selected_tables.
  destruct (2 <=? length tables)%nat eqn:Hlen.
  - erewrite bind_returned by reflexivity.
    erewrite bind_returned by apply pbar_update_run.
    unfold ret. now rewrite add_logs_add, append_non_city_filter.
  - destruct tables as [|good_df rest]; [congruence|].
    erewrite bind_returned by reflexivity.
    erewrite bind_returned by apply pbar_update_run.
    unfold ret. now rewrite add_logs_add.
Qed.




(** The steps of the crawl before its loop, for a region that is ready. *)
Lemma download_all_region_ridelogs_ready (n : Z) (output_path : string) (w : World) :
  crawl_ready env self n ->
  download_all_region_ridelogs env self output_path w =
  bind (crawl_pages env self (py_range 1 (py_round_div n 30 + 1)) [])
       (concat_and_write env self output_path)
       (add_logs [] [ReqGet (region_uri self); ReqGet (region_stats_uri self)] [] w).
Proof.
  intros (body & page & data & more & info & Hget & Hin & Hstat & Hdiv & Hfill & Htot).
  unfold download_all_region_ridelogs.
  erewrite bind_returned by (eapply check_region_valid; eassumption).
  erewrite bind_returned
    by (erewrite get_region_info_run by eassumption; rewrite Hfill; reflexivity).
  erewrite bind_returned by (unfold total_pages_of; rewrite Htot; reflexivity).
  now rewrite add_logs_add.
Qed.

End Runs.

(** ** Region validation *)

(** C5. When the region page is fetched with body [body],
    [is_valid_region] returns [False] exactly when the error title occurs in
    [body], and [True] exactly when it does not. *)
Theorem is_valid_region_marker (env : Env) (self : Self) (w : World) (body : string) :
  requests_get env (region_uri self) = Ok body ->
  (fst (is_valid_region env self w) = Returned false
   <-> occurs_in "<title>Error</title>" body) /\
  (fst (is_valid_region env self w) = Returned true
   <-> ~ occurs_in "<title>Error</title>" body).
Proof.
  intros Hget. rewrite (is_valid_region_run env self body w Hget). simpl.
  rewrite <- (py_in_spec "<title>Error</title>" body).
  change non_existant with "<title>Error</title>".
  destruct (py_in "<title>Error</title>" body); simpl; split; split;
    intros H; try reflexivity; congruence.
Qed.

Lemma is_valid_region_marker_witness :
  fst (is_valid_region
         (demo_env "<html><title>Error</title></html>" [] (fun _ => Err no_tables) EmptyString)
         demo_self demo_world) = Returned false.
Proof.
  apply (is_valid_region_marker _ demo_self demo_world
           "<html><title>Error</title></html>").
  - reflexivity.
  - exists "<html>", "</html>". reflexivity.
Defined.

(** ** Files are written last *)

Lemma writes_at_most_bind {A B} (path : string) (m : M A) (k : A -> M B) :
  logs_only m -> (forall a, writes_at_most path (k a)) ->
  writes_at_most path (bind m k).
Proof.
  intros (o & out & reqs & pb & Hm) Hk. destruct o as [a | e | s].
  - destruct (Hk a) as (o' & out' & reqs' & pb' & content & Hka & Hret).
    exists o', (out ++ out'), (reqs ++ reqs'), (pb ++ pb'), content. split; [|exact Hret].
    intros w. rewrite (bind_returned _ _ _ _ _ (Hm w)), Hka. now rewrite add_logs_add.
  - exists (Raised e), out, reqs, pb, None. split; [|discriminate].
    intros w. apply bind_raised, Hm.
  - exists (Exited s), out, reqs, pb, None. split; [|discriminate].
    intros w. apply bind_exited, Hm.
Qed.

Lemma writes_at_most_write_file (path content : string) :
  writes_at_most path (write_file path content).
Proof.
  exists (Returned tt), [], [], [], (Some content). split; [|eauto].
  intros w. rewrite add_logs_nil. reflexivity.
Qed.

Lemma writes_at_most_raise {A} (path : string) (e : exn) :
  writes_at_most path (@raise A e).
Proof.
  exists (Raised e), [], [], [], None. split; [|discriminate].
  intros w. simpl. rewrite add_logs_nil. reflexivity.
Qed.

Lemma writes_at_most_trails (env : Env) (self : Self) (region_id output_path : string) :
  writes_at_most (trail_listing_path self output_path)
    (download_all_region_trails env self region_id output_path).
Proof.
  unfold download_all_region_trails.
  apply writes_at_most_bind; [apply logs_only_check_region | intros _].
  apply writes_at_most_bind.
  - unfold do_session_get. logs_only_tac.
  - intros raw. apply writes_at_most_write_file.
Qed.

Lemma writes_at_most_ridelogs (env : Env) (self : Self) (output_path : string) :
  writes_at_most (scraped_riders_path self output_path)
    (download_all_region_ridelogs env self output_path).
Proof.
  unfold download_all_region_ridelogs.
  apply writes_at_most_bind; [apply logs_only_check_region | intros _].
  apply writes_at_most_bind; [apply logs_only_get_region_info | intros info].
  apply writes_at_most_bind; [apply logs_only_total_pages_of | intros total_pages].
  apply writes_at_most_bind; [apply logs_only_crawl_pages | intros dfs].
  destruct (pd_concat dfs); [apply writes_at_most_write_file | apply writes_at_most_raise].
Qed.

Lemma w_requests_write_opt (path : string) (content : option string)
    (out : list string) (reqs : list Request) (pb : list Z) (w : World) :
  w_requests (write_opt path content (add_logs out reqs pb w)) = w_requests w ++ reqs.
Proof. destruct content; reflexivity. Qed.

(** The probe of the region page is what [check_region] requests, whatever
    comes of it. *)
Lemma check_region_probe (env : Env) (self : Self) (w : World) :
  exists o out, check_region env self w = (o, add_logs out [ReqGet (region_uri self)] [] w).
Proof.
  destruct (requests_get env (region_uri self)) as [body | e] eqn:Hget.
  - destruct (py_in non_existant body) eqn:Hin.
    + eexists _, _. eapply check_region_invalid; eassumption.
    + eexists _, _. eapply check_region_valid; eassumption.
  - exists (Raised e), []. unfold check_region.
    apply bind_raised, is_valid_region_fails, Hget.
Qed.

Lemma probe_first {A} (env : Env) (self : Self) (path : string) (k : unit -> M A)
    (w : World) :
  (forall u, writes_at_most path (k u)) ->
  exists later,
    w_requests (snd (bind (check_region env self) k w)) =
    w_requests w ++ ReqGet (region_uri self) :: later.
Proof.
  intros Hk. destruct (check_region_probe env self w) as (o & out & Hc).
  destruct o as [[] | e | s].
  - destruct (Hk tt) as (o' & out' & reqs' & pb' & content & Hrun & _).
    rewrite (bind_returned _ _ _ _ _ Hc), Hrun. exists reqs'.
    unfold snd. rewrite w_requests_write_opt. simpl.
    now rewrite <- app_assoc.
  - rewrite (bind_raised _ _ _ _ _ Hc). exists []. reflexivity.
  - rewrite (bind_exited _ _ _ _ _ Hc). exists []. reflexivity.
Qed.

(** C6. For a region whose page carries the error title, [check_region]
    prints one line that contains the region name and ends the process with
    status 1; both downloads then end the same way in the same world: the
    only request issued is the probe of the region page and no file is
    written.  Whatever the region, the probe is the first request of both
    downloads. *)
Theorem check_region_invalid_exits (env : Env) (self : Self) (w : World) :
  (forall body,
     requests_get env (region_uri self) = Ok body ->
     occurs_in "<title>Error</title>" body ->
     let w' := add_logs [invalid_region_message self] [ReqGet (region_uri self)] [] w in
     check_region env self w = (Exited 1, w') /\
     1 <> 0 /\
     occurs_in (region self) (invalid_region_message self) /\
     w_files w' = w_files w /\
     (forall region_id output_path,
        download_all_region_trails env self region_id output_path w = (Exited 1, w')) /\
     (forall output_path,
        download_all_region_ridelogs env self output_path w = (Exited 1, w'))) /\
  (forall region_id output_path, exists later,
     w_requests (snd (download_all_region_trails env self region_id output_path w)) =
     w_requests w ++ ReqGet (region_uri self) :: later) /\
  (forall output_path, exists later,
     w_requests (snd (download_all_region_ridelogs env self output_path w)) =
     w_requests w ++ ReqGet (region_uri self) :: later).
Proof.
  split; [|split].
  - intros body Hget Hocc w'. apply py_in_spec in Hocc.
    pose proof (check_region_invalid env self body w Hget Hocc) as Hcheck.
    repeat split.
    + exact Hcheck.
    + discriminate.
    + exists "[!] ", " is not a valid Trailforks Region.". reflexivity.
    + intros region_id output_path. unfold download_all_region_trails.
      apply bind_exited, Hcheck.
    + intros output_path. unfold download_all_region_ridelogs.
      apply bind_exited, Hcheck.
  - intros region_id output_path. unfold download_all_region_trails.
    apply (probe_first env self (trail_listing_path self output_path)).
    intros _. apply writes_at_most_bind.
    + unfold do_session_get. logs_only_tac.
    + intros raw. apply writes_at_most_write_file.
  - intros output_path. unfold download_all_region_ridelogs.
    apply (probe_first env self (scraped_riders_path self output_path)).
    intros _.
    apply writes_at_most_bind; [apply logs_only_get_region_info | intros info].
    apply writes_at_most_bind; [apply logs_only_total_pages_of | intros total_pages].
    apply writes_at_most_bind; [apply logs_only_crawl_pages | intros dfs].
    destruct (pd_concat dfs); [apply writes_at_most_write_file | apply writes_at_most_raise].
Qed.


Lemma check_region_invalid_exits_witness :
  download_all_region_ridelogs
    (demo_env "<html><title>Error</title></html>" (demo_items "90")
       (fun _ => Ok [ride_table 0 30]) EmptyString)
    demo_self "." demo_world =
  (Exited 1,
   add_logs ["[!] demo is not a valid Trailforks Region."]
     [ReqGet "https://www.trailforks.com/region/demo"] [] demo_world).
Proof.
  apply (proj1 (check_region_invalid_exits
                  (demo_env "<html><title>Error</title></html>" (demo_items "90")
                     (fun _ => Ok [ride_table 0 30]) EmptyString)
                  demo_self demo_world)
           "<html><title>Error</title></html>").
  - reflexivity.
  - exists "<html>", "</html>". reflexivity.
Defined.

(** ** The trail export *)

Lemma re_sub_letter_newline_step (c : ascii) (rest : string) :
  re_sub_letter_newline (String c (String chr_newline rest)) =
  if in_class_aAzZ c
  then quote_comma +:+ re_sub_letter_newline rest
  else String c (re_sub_letter_newline (String chr_newline rest)).
Proof.
  change (re_sub_letter_newline (String c (String chr_newline rest)))
    with (if in_class_aAzZ c && is_char chr_newline chr_newline
          then quote_comma +:+ re_sub_letter_newline rest
          else String c (re_sub_letter_newline (String chr_newline rest))).
  change (is_char chr_newline chr_newline) with true.
  now rewrite andb_true_r.
Qed.

(** C2. On the export text [Name], line break, [next], for a valid region,
    [download_all_region_trails] writes the text that [re.sub] returns, and
    that text is [Nam], double quote, comma, [next]: the match takes the
    letter in front of the line break with it, so the written file does not
    contain [Name] followed by the double quote and the comma. *)
Theorem trail_export_repair_drops_letter :
  let env := demo_env "<html><title>Demo</title></html>" [] (fun _ => Err no_tables)
               ("Name" +:+ nl +:+ "next") in
  let run := download_all_region_trails env demo_self "7" "." demo_world in
  fst run = Returned tt /\
  w_files (snd run) !! "./demo_trail_listing.csv" =
    Some (re_sub_letter_newline ("Name" +:+ nl +:+ "next")) /\
  re_sub_letter_newline ("Name" +:+ nl +:+ "next") = "Nam" +:+ quote_comma +:+ "next" /\
  py_in ("Name" +:+ quote_comma) (re_sub_letter_newline ("Name" +:+ nl +:+ "next")) = false /\
  (forall c rest,
     in_class_aAzZ c = true ->
     re_sub_letter_newline (String c (String chr_newline rest)) =
     quote_comma +:+ re_sub_letter_newline rest).
Proof.
  repeat split; try (vm_compute; reflexivity).
  intros c rest Hc. now rewrite re_sub_letter_newline_step, Hc.
Qed.

Lemma trail_export_repair_drops_letter_witness :
  re_sub_letter_newline (String "e" (String chr_newline "next")) =
  quote_comma +:+ re_sub_letter_newline "next".
Proof.
  apply (proj2 (proj2 (proj2 (proj2 trail_export_repair_drops_letter)))).
  reflexivity.
Defined.

(** ** Page numbers *)








(** ** The ride-log crawl *)

Section Crawl.

Variable env : Env.
Variable self : Self.
Variable output_path : string.



(** C10. For a valid region whose ride-log count rounds to zero pages, the
    crawl requests no ride-log page, the loop leaves the list of tables
    empty, concatenating it raises ValueError and the files are as they
    were. *)
Theorem zero_pages_raises (n : Z) (w : World) :
  crawl_ready env self n ->
  py_round_div n 30 = 0 ->
  download_all_region_ridelogs env self output_path w =
    (Raised ValueError,
     add_logs [] [ReqGet (region_uri self); ReqGet (region_stats_uri self)] [] w) /\
  (forall w', crawl_pages env self (py_range 1 (py_round_div n 30 + 1)) [] w' =
              (Returned [], w')) /\
  pd_concat [] = None /\
  w_files (snd (download_all_region_ridelogs env self output_path w)) = w_files w.
Proof.
  intros Hready Hzero.
  assert (Hrun : download_all_region_ridelogs env self output_path w =
    (Raised ValueError,
     add_logs [] [ReqGet (region_uri self); ReqGet (region_stats_uri self)] [] w)).
  { rewrite (download_all_region_ridelogs_ready env self n output_path w Hready).
    rewrite Hzero. reflexivity. }
  repeat split.
  - exact Hrun.
  - intros w'. rewrite Hzero. reflexivity.
  - rewrite Hrun. reflexivity.
Qed.

End Crawl.

(** ** The statistics scraper *)













(** ** Concatenation of tables *)

Lemma mem_string_In (x : string) (l : list string) :
  mem_string x l = true <-> In x l.
Proof.
  induction l as [|y l IH]; simpl.
  - split; [discriminate | tauto].
  - rewrite orb_true_iff, IH, String.eqb_eq. split; intros [H | H]; auto.
Qed.

Lemma mem_string_not_In (x : string) (l : list string) :
  mem_string x l = false <-> ~ In x l.
Proof.
  rewrite <- mem_string_In. destruct (mem_string x l); split; congruence.
Qed.






Lemma selected_tables_one (t : DataFrame) : selected_tables [t] = [t].
Proof. reflexivity. Qed.


(** ** The crawl and its failures *)










Lemma zero_pages_raises_witness :
  download_all_region_ridelogs
    (demo_env demo_title (demo_items "15") full_pages EmptyString)
    demo_self "." demo_world =
  (Raised ValueError,
   add_logs [] [ReqGet (region_uri demo_self); ReqGet (region_stats_uri demo_self)] []
     demo_world).
Proof.
  refine (proj1 (zero_pages_raises
                   (demo_env demo_title (demo_items "15") full_pages EmptyString)
                   demo_self "." 15 demo_world _ eq_refl)).
  exists demo_title, "stats", "container", [], (demo_info 15).
  repeat split; reflexivity.
Defined.

(** ** Running the crawl again *)



(** * Further properties of the code *)

(** ** The repair pass *)

Lemma string_ind2 (P : string -> Prop) :
  P EmptyString ->
  (forall c, P (String c EmptyString)) ->
  (forall c n rest, P rest -> P (String n rest) -> P (String c (String n rest))) ->
  forall s, P s.
Proof.
  intros Hnil Hone Hstep s.
  assert (H : P s /\ forall c, P (String c s)).
  { induction s as [|n rest [IH1 IH2]]; split; auto. }
  exact (proj1 H).
Qed.

Lemma re_sub_letter_newline_cons2 (c n : ascii) (rest : string) :
  re_sub_letter_newline (String c (String n rest)) =
  if in_class_aAzZ c && is_char n chr_newline
  then quote_comma +:+ re_sub_letter_newline rest
  else String c (re_sub_letter_newline (String n rest)).
Proof. reflexivity. Qed.

Lemma in_class_aAzZ_range (c : ascii) :
  in_class_aAzZ c = (65 <=? code c) && (code c <=? 122).
Proof.
  unfold in_class_aAzZ, is_char.
  destruct (Ascii.eqb c "a") eqn:Ea; [apply Ascii.eqb_eq in Ea; subst; reflexivity|].
  destruct (Ascii.eqb c "Z") eqn:Ez; [apply Ascii.eqb_eq in Ez; subst; reflexivity|].
  simpl. now rewrite orb_false_r.
Qed.

Lemma is_char_newline_code (n : ascii) : is_char n chr_newline = (code n =? 10).
Proof.
  unfold is_char. destruct (Ascii.eqb n chr_newline) eqn:E.
  - apply Ascii.eqb_eq in E. subst. reflexivity.
  - symmetry. apply Z.eqb_neq. intros Hcode. apply Ascii.eqb_neq in E. apply E.
    unfold code in Hcode. rewrite <- (ascii_N_embedding n).
    replace (N_of_ascii n) with 10%N by lia. reflexivity.
Qed.

Lemma has_letter_break_cons2 (c n : ascii) (rest : string) :
  has_letter_break (String c (String n rest)) =
  (in_class_aAzZ c && is_char n chr_newline) || has_letter_break (String n rest).
Proof. rewrite in_class_aAzZ_range, is_char_newline_code. reflexivity. Qed.

(** X1. The repair pass returns the text unchanged exactly when no code
    point from 65 to 122 (the letters and the six characters between Z and
    a) is directly followed by a line break. *)
Theorem repair_unchanged_iff (s : string) :
  re_sub_letter_newline s = s <-> has_letter_break s = false.
Proof.
  induction s as [| c | c n rest IHrest IH] using string_ind2.
  - split; reflexivity.
  - split; reflexivity.
  - rewrite re_sub_letter_newline_cons2, has_letter_break_cons2.
    destruct (in_class_aAzZ c && is_char n chr_newline) eqn:Hm.
    + rewrite orb_true_l. split; [|discriminate]. intros Heq. exfalso.
      unfold quote_comma in Heq. simpl in Heq. injection Heq as Hc _.
      apply andb_true_iff in Hm as [Hclass _]. subst c. discriminate Hclass.
    + rewrite orb_false_l, <- IH.
      split; [intros Heq; now injection Heq | intros Heq; now rewrite Heq].
Qed.

(** X2. The repair pass never changes the length of the text: every match
    is two characters long and so is its replacement. *)
Theorem repair_keeps_length (s : string) :
  String.length (re_sub_letter_newline s) = String.length s.
Proof.
  induction s as [| c | c n rest IHrest IH] using string_ind2.
  - reflexivity.
  - reflexivity.
  - rewrite re_sub_letter_newline_cons2.
    destruct (in_class_aAzZ c && is_char n chr_newline); simpl.
    + now rewrite IHrest.
    + simpl in IH. now rewrite IH.
Qed.

Lemma has_letter_break_skip (c : ascii) (t : string) :
  in_class_aAzZ c = false ->
  has_letter_break (String c t) = has_letter_break t.
Proof.
  intros Hc. destruct t as [|n t]; [reflexivity|].
  now rewrite has_letter_break_cons2, Hc.
Qed.

Lemma re_sub_letter_newline_head (n : ascii) (rest : string) :
  is_char n chr_newline = false ->
  exists h t, re_sub_letter_newline (String n rest) = String h t /\
              is_char h chr_newline = false.
Proof.
  intros Hn. destruct rest as [|m rest].
  - exists n, EmptyString. auto.
  - rewrite re_sub_letter_newline_cons2.
    destruct (in_class_aAzZ n && is_char m chr_newline).
    + exists chr_quote, (String chr_comma (re_sub_letter_newline rest)). auto.
    + eexists _, _. split; [reflexivity | exact Hn].
Qed.

Lemma repair_leaves_no_break (s : string) :
  has_letter_break (re_sub_letter_newline s) = false.
Proof.
  induction s as [| c | c n rest IHrest IH] using string_ind2.
  - reflexivity.
  - reflexivity.
  - rewrite re_sub_letter_newline_cons2.
    destruct (in_class_aAzZ c && is_char n chr_newline) eqn:Hm.
    + unfold quote_comma. simpl String.append.
      rewrite !has_letter_break_skip by reflexivity. exact IHrest.
    + destruct (in_class_aAzZ c) eqn:Hc.
      * simpl in Hm.
        destruct (re_sub_letter_newline_head n rest Hm) as (h & t & Heq & Hh).
        rewrite Heq in *. now rewrite has_letter_break_cons2, Hc, Hh, IH.
      * now rewrite has_letter_break_skip.
Qed.

Lemma repair_fixed_point (s : string) :
  has_letter_break s = false -> re_sub_letter_newline s = s.
Proof.
  induction s as [| c | c n rest IHrest IH] using string_ind2; try reflexivity.
  rewrite re_sub_letter_newline_cons2, has_letter_break_cons2.
  intros Hnone. apply orb_false_iff in Hnone as [Hm Hrest].
  now rewrite Hm, (IH Hrest).
Qed.

(** X3. The repair pass is idempotent: its result holds no code point from
    65 to 122 directly followed by a line break, so a second pass changes
    nothing. *)
Theorem repair_idempotent (s : string) :
  has_letter_break (re_sub_letter_newline s) = false /\
  re_sub_letter_newline (re_sub_letter_newline s) = re_sub_letter_newline s.
Proof.
  split; [apply repair_leaves_no_break|].
  apply repair_fixed_point, repair_leaves_no_break.
Qed.

(** ** Validation and the trail export in every case *)

Lemma only_file_changed_write_opt (path : string) (content : option string)
    (out : list string) (reqs : list Request) (pb : list Z) (w : World) :
  only_file_changed path w (write_opt path content (add_logs out reqs pb w)).
Proof.
  intros other Hother. destruct content as [text|]; simpl; [|reflexivity].
  now apply lookup_insert_ne.
Qed.

Lemma output_paths_differ (self : Self) (output_path : string) :
  trail_listing_path self output_path <> scraped_riders_path self output_path.
Proof.
  unfold trail_listing_path, scraped_riders_path. intros Heq.
  apply (inj (String.app output_path)) in Heq.
  apply (inj (String.app "/")) in Heq.
  apply (inj (String.app (region self))) in Heq.
  discriminate Heq.
Qed.

(** X4. A failure of the request for the region page is not read as an
    invalid region: [is_valid_region] raises it, [check_region] raises it
    without printing or exiting, and both downloads raise it with nothing
    requested but the probe and no file written. *)
Theorem probe_failure_propagates (env : Env) (self : Self) (e : exn) (w : World) :
  requests_get env (region_uri self) = Err e ->
  let w' := add_logs [] [ReqGet (region_uri self)] [] w in
  is_valid_region env self w = (Raised e, w') /\
  check_region env self w = (Raised e, w') /\
  (forall region_id output_path,
     download_all_region_trails env self region_id output_path w = (Raised e, w')) /\
  (forall output_path,
     download_all_region_ridelogs env self output_path w = (Raised e, w')) /\
  w_stdout w' = w_stdout w /\ w_files w' = w_files w.
Proof.
  intros Hget w'.
  pose proof (is_valid_region_fails env self e w Hget) as Hvalid.
  assert (Hcheck : check_region env self w = (Raised e, w'))
    by (unfold check_region; apply bind_raised, Hvalid).
  repeat split; auto.
  - intros region_id output_path. unfold download_all_region_trails.
    apply bind_raised, Hcheck.
  - intros output_path. unfold download_all_region_ridelogs.
    apply bind_raised, Hcheck.
  - simpl. apply app_nil_r.
Qed.

Lemma probe_failure_propagates_witness :
  is_valid_region
    {| requests_get := fun _ => Err (RemoteError "timeout");
       session_get := fun _ => Ok EmptyString;
       read_html := fun _ => Err no_tables;
       find_all_div := fun _ => [];
       find_all_li := fun _ => [];
       to_csv := demo_to_csv |}
    demo_self demo_world =
  (Raised (RemoteError "timeout"),
   add_logs [] [ReqGet (region_uri demo_self)] [] demo_world).
Proof.
  refine (proj1 (probe_failure_propagates _ demo_self (RemoteError "timeout")
                   demo_world _)).
  reflexivity.
Defined.



(** X6. Each download changes no file but its own output file, and the two
    output files of one region and directory are different files: neither
    download can overwrite what the other wrote. *)
Theorem downloads_keep_other_files (env : Env) (self : Self)
    (region_id output_path : string) (w : World) :
  only_file_changed (trail_listing_path self output_path) w
    (snd (download_all_region_trails env self region_id output_path w)) /\
  only_file_changed (scraped_riders_path self output_path) w
    (snd (download_all_region_ridelogs env self output_path w)) /\
  trail_listing_path self output_path <> scraped_riders_path self output_path /\
  w_files (snd (download_all_region_ridelogs env self output_path w))
    !! trail_listing_path self output_path
  = w_files w !! trail_listing_path self output_path /\
  w_files (snd (download_all_region_trails env self region_id output_path w))
    !! scraped_riders_path self output_path
  = w_files w !! scraped_riders_path self output_path.
Proof.
  destruct (writes_at_most_trails env self region_id output_path)
    as (o1 & out1 & reqs1 & pb1 & c1 & Hrun1 & _).
  destruct (writes_at_most_ridelogs env self output_path)
    as (o2 & out2 & reqs2 & pb2 & c2 & Hrun2 & _).
  rewrite Hrun1, Hrun2. unfold snd.
  pose proof (output_paths_differ self output_path) as Hdiff.
  repeat split.
  - apply only_file_changed_write_opt.
  - apply only_file_changed_write_opt.
  - exact Hdiff.
  - now apply only_file_changed_write_opt.
  - apply only_file_changed_write_opt. congruence.
Qed.

(** ** The number extractor, in general *)

Lemma greedy_upto_lt_none (s : string) :
  greedy_upto_lt s = None <-> line_has_no_lt s = true.
Proof.
  induction s as [|c rest IH]; simpl.
  - split; reflexivity.
  - destruct (is_char c chr_newline); [split; reflexivity|].
    destruct (greedy_upto_lt rest) as [kept|].
    + split; [discriminate|]. intros H. apply andb_true_iff in H as [_ H].
      apply IH in H. discriminate H.
    + destruct (is_char c chr_lt); simpl.
      * split; discriminate.
      * split; [intros _; now apply IH | reflexivity].
Qed.

Lemma greedy_upto_lt_some (s kept : string) :
  greedy_upto_lt s = Some kept ->
  exists post,
    s = kept +:+ String chr_lt post /\
    no_newline kept = true /\
    line_has_no_lt post = true.
Proof.
  revert kept. induction s as [|c rest IH]; intros kept; simpl; [discriminate|].
  destruct (is_char c chr_newline) eqn:Hnl; [discriminate|].
  destruct (greedy_upto_lt rest) as [kept'|] eqn:Hrest.
  - intros [= <-]. destruct (IH kept' eq_refl) as (post & -> & Hk & Hp).
    exists post. simpl. rewrite Hnl. auto.
  - destruct (is_char c chr_lt) eqn:Hlt; [|discriminate].
    intros [= <-]. exists rest. apply Ascii.eqb_eq in Hlt. subst c.
    repeat split. now apply greedy_upto_lt_none.
Qed.

(** X7. Whatever [re.search] extracts from a list item starts with a digit
    that directly follows a [>], holds no line break, and runs up to the
    last [<] of its line: it is followed by a [<] after which the line holds
    no other. *)
Theorem re_search_number_sound (item group : string) :
  re_search_number item = Some group ->
  exists pre post d kept,
    item = pre +:+ String chr_gt (group +:+ String chr_lt post) /\
    group = String d kept /\
    is_digit d = true /\
    no_newline kept = true /\
    line_has_no_lt post = true.
Proof.
  induction item as [| c | c n rest IHrest IH] using string_ind2.
  - discriminate.
  - discriminate.
  - change (re_search_number (String c (String n rest)))
      with (if is_char c chr_gt && is_digit n
            then match greedy_upto_lt rest with
                 | Some kept => Some (String n kept)
                 | None => re_search_number (String n rest)
                 end
            else re_search_number (String n rest)).
    assert (Hnext : re_search_number (String n rest) = Some group ->
      exists pre post d kept,
        String c (String n rest) = pre +:+ String chr_gt (group +:+ String chr_lt post) /\
        group = String d kept /\ is_digit d = true /\
        no_newline kept = true /\ line_has_no_lt post = true).
    { intros H. destruct (IH H) as (pre & post & d & kept & Heq & Hrest).
      exists (String c pre), post, d, kept. simpl. now rewrite Heq. }
    destruct (is_char c chr_gt && is_digit n) eqn:Hhere; [|exact Hnext].
    destruct (greedy_upto_lt rest) as [kept|] eqn:Hg; [|exact Hnext].
    intros [= <-]. apply andb_true_iff in Hhere as [Hc Hn].
    apply Ascii.eqb_eq in Hc. subst c.
    destruct (greedy_upto_lt_some rest kept Hg) as (post & -> & Hk & Hp).
    exists EmptyString, post, n, kept. auto.
Qed.

Lemma re_search_number_sound_witness :
  exists pre post d kept,
    "<li>12,345</li>" = pre +:+ String chr_gt ("12,345" +:+ String chr_lt post) /\
    "12,345" = String d kept /\
    is_digit d = true /\
    no_newline kept = true /\
    line_has_no_lt post = true.
Proof. apply (re_search_number_sound "<li>12,345</li>" "12,345"). reflexivity. Defined.

Lemma is_digit_plain (d : ascii) :
  is_digit d = true ->
  is_char d chr_comma = false /\ is_space d = false /\
  is_char d chr_minus = false /\ is_char d chr_plus = false /\
  0 <= digit_value d.
Proof.
  destruct d as [[] [] [] [] [] [] [] []]; intros H; try discriminate H;
    repeat split; discriminate.
Qed.

Lemma int_digits_lower_bound (s : string) :
  forall acc need v, 0 <= acc -> int_digits acc need s = Some v -> 0 <= v.
Proof.
  induction s as [|c rest IH]; intros acc need v Hacc; simpl.
  - destruct need; [discriminate | intros [= <-]; exact Hacc].
  - destruct (is_digit c) eqn:Hd.
    + apply IH. destruct (is_digit_plain c Hd) as (_ & _ & _ & _ & Hv). lia.
    + destruct (is_char c chr_underscore).
      * destruct need; [discriminate | now apply IH].
      * destruct (is_space c); [|discriminate].
        destruct need; [discriminate|].
        destruct (all_space rest); [intros [= <-]; exact Hacc | discriminate].
Qed.

Lemma parse_item_nonneg (item : string) (v : Z) : parse_item item = Ok v -> 0 <= v.
Proof.
  unfold parse_item. destruct (re_search_number item) as [group|] eqn:Hs; [|discriminate].
  destruct (re_search_number_sound item group Hs) as (_ & _ & d & kept & _ & -> & Hd & _).
  destruct (is_digit_plain d Hd) as (Hcomma & Hspace & Hminus & Hplus & _).
  simpl remove_commas. rewrite Hcomma. unfold py_int. simpl lstrip.
  rewrite Hspace, Hminus, Hplus.
  destruct (int_digits 0 true (String d (remove_commas kept))) as [v'|] eqn:Hint;
    [|discriminate].
  intros [= <-]. apply (int_digits_lower_bound _ 0 true v' ltac:(lia) Hint).
Qed.

(** ** The record of statistics *)

Lemma record_ok_init : record_ok region_info_init.
Proof.
  split.
  - intros key. split.
    + unfold region_info_init. rewrite !lookup_insert_is_Some. simpl.
      intros [<- | [_ [<- | [_ [<- | [_ [<- | [_ H]]]]]]]]; auto.
      now apply lookup_empty_is_Some in H.
    + simpl. intros [<- | [<- | [<- | [<- | []]]]]; eexists; reflexivity.
  - intros key v. unfold region_info_init.
    rewrite !lookup_insert_Some, lookup_empty. intuition congruence.
Qed.

Lemma record_ok_insert (info : gmap string (option Z)) (key : string) (v : Z) :
  record_ok info -> In key region_vars -> 0 <= v ->
  record_ok (<[key := Some v]> info).
Proof.
  intros [Hdom Hval] Hkey Hv. split.
  - intros other. rewrite lookup_insert_is_Some, Hdom.
    split; [intros [<- | [_ H]]; assumption | intros H].
    destruct (decide (key = other)) as [-> | Hne]; auto.
  - intros other v'. rewrite lookup_insert_Some.
    intros [[_ [= <-]] | [_ H]]; [exact Hv | exact (Hval other v' H)].
Qed.

Lemma fill_region_info_record_ok (items : list string) :
  forall i info info',
    record_ok info ->
    fill_region_info i items info = Ok info' ->
    record_ok info'.
Proof.
  induction items as [|item rest IH]; intros i info info' Hok; simpl.
  - now intros [= <-].
  - destruct (parse_item item) as [v|] eqn:Hparse; [|discriminate].
    destruct (nth_error region_vars i) as [key|] eqn:Hkey; [|discriminate].
    apply IH. apply record_ok_insert; auto.
    + eapply nth_error_In, Hkey.
    + eapply parse_item_nonneg, Hparse.
Qed.

(** What [__get_region_info] does in every case: one request, then an
    outcome that does not depend on the world. *)
Lemma get_region_info_any (env : Env) (self : Self) :
  exists o,
    (forall w, get_region_info env self w =
               (o, add_logs [] [ReqGet (region_stats_uri self)] [] w)) /\
    (forall info, o = Returned info -> record_ok info) /\
    (forall s, o <> Exited s).
Proof.
  destruct (requests_get env (region_stats_uri self)) as [page | e] eqn:Hget;
    unfold get_region_info, do_requests_get.
  - destruct (find_all_div env page) as [|data more] eqn:Hdiv.
    + exists (Raised IndexError). split; [|split; discriminate].
      intros w. erewrite bind_returned by (rewrite logged_call_run, Hget; reflexivity).
      rewrite Hdiv. reflexivity.
    + destruct (fill_region_info 0 (find_all_li env data) region_info_init)
        as [info | e] eqn:Hfill.
      * exists (Returned info). split; [|split; [|discriminate]].
        -- intros w. erewrite bind_returned
             by (rewrite logged_call_run, Hget; reflexivity).
           rewrite Hdiv, Hfill. reflexivity.
        -- intros info' [= <-].
           exact (fill_region_info_record_ok _ 0 _ _ record_ok_init Hfill).
      * exists (Raised e). split; [|split; discriminate].
        intros w. erewrite bind_returned by (rewrite logged_call_run, Hget; reflexivity).
        rewrite Hdiv, Hfill. reflexivity.
  - exists (Raised e). split; [|split; discriminate].
    intros w. erewrite bind_raised by (rewrite logged_call_run, Hget; reflexivity).
    reflexivity.
Qed.

(** X8. Whenever [__get_region_info] returns, the record it returns holds
    exactly the four names of [region_vars], and each holds [None] or an
    integer that is not negative: no key is added or lost and no negative
    count can come out of the page. *)
Theorem get_region_info_record (env : Env) (self : Self) (w : World)
    (info : gmap string (option Z)) :
  fst (get_region_info env self w) = Returned info ->
  (forall key, is_Some (info !! key) <-> In key region_vars) /\
  (forall key v, info !! key = Some (Some v) -> 0 <= v).
Proof.
  destruct (get_region_info_any env self) as (o & Hrun & Hok & _).
  rewrite Hrun. simpl. intros ->. now apply Hok.
Qed.

Lemma get_region_info_record_witness :
  is_Some (demo_info 90 !! "total_ridelogs") <-> In "total_ridelogs" region_vars.
Proof.
  refine (proj1 (get_region_info_record
                   (demo_env demo_title (demo_items "90") full_pages EmptyString)
                   demo_self demo_world (demo_info 90) _) "total_ridelogs").
  reflexivity.
Defined.

(** X9. An exception of [__get_region_info], whatever its cause (the
    statistics page does not answer, the container is missing, a value does
    not parse, there is a fifth item), is not caught by
    [download_all_region_ridelogs]: for a valid region the call raises it
    after the probe and the statistics request, before any ride-log page is
    requested, and the files are as they were. *)
Theorem region_info_failure_propagates (env : Env) (self : Self) (output_path body : string)
    (e : exn) (w w1 : World) :
  requests_get env (region_uri self) = Ok body ->
  py_in non_existant body = false ->
  fst (get_region_info env self w1) = Raised e ->
  download_all_region_ridelogs env self output_path w =
    (Raised e,
     add_logs [] [ReqGet (region_uri self); ReqGet (region_stats_uri self)] [] w) /\
  w_files (snd (download_all_region_ridelogs env self output_path w)) = w_files w.
Proof.
  intros Hget Hin Hinfo.
  destruct (get_region_info_any env self) as (o & Hrun & _).
  rewrite Hrun in Hinfo. simpl in Hinfo. subst o.
  assert (Hdl : download_all_region_ridelogs env self output_path w =
    (Raised e,
     add_logs [] [ReqGet (region_uri self); ReqGet (region_stats_uri self)] [] w)).
  { unfold download_all_region_ridelogs.
    rewrite (bind_returned _ _ _ _ _ (check_region_valid env self body w Hget Hin)).
    rewrite (bind_raised _ _ _ _ _ (Hrun _)). now rewrite add_logs_add. }
  split; [exact Hdl | now rewrite Hdl].
Qed.

Lemma region_info_failure_propagates_witness :
  download_all_region_ridelogs
    (demo_env demo_title ["<li>many</li>"] full_pages EmptyString)
    demo_self "." demo_world =
  (Raised AttributeError,
   add_logs [] [ReqGet (region_uri demo_self); ReqGet (region_stats_uri demo_self)] []
     demo_world).
Proof.
  refine (proj1 (region_info_failure_propagates
                   (demo_env demo_title ["<li>many</li>"] full_pages EmptyString)
                   demo_self "." demo_title AttributeError demo_world demo_world _ _ _));
    reflexivity.
Defined.

(** X10. When the marked container of a valid region holds no list item,
    [__get_region_info] returns the record with [None] in all four fields
    and [download_all_region_ridelogs] raises TypeError on dividing [None]
    by 30: no ride-log page is requested and no file is written. *)
Theorem empty_container_raises_type_error (env : Env) (self : Self)
    (output_path body page data : string) (more : list string) (w : World) :
  requests_get env (region_uri self) = Ok body ->
  py_in non_existant body = false ->
  requests_get env (region_stats_uri self) = Ok page ->
  find_all_div env page = data :: more ->
  find_all_li env data = [] ->
  fst (get_region_info env self w) = Returned region_info_init /\
  (forall key, In key region_vars -> region_info_init !! key = Some None) /\
  download_all_region_ridelogs env self output_path w =
    (Raised TypeError,
     add_logs [] [ReqGet (region_uri self); ReqGet (region_stats_uri self)] [] w).
Proof.
  intros Hget Hin Hstat Hdiv Hli.
  split; [|split].
  - rewrite (get_region_info_run env self page data more w Hstat Hdiv), Hli.
    reflexivity.
  - intros key Hkey. simpl in Hkey.
    destruct Hkey as [<- | [<- | [<- | [<- | []]]]]; reflexivity.
  - unfold download_all_region_ridelogs.
    rewrite (bind_returned _ _ _ _ _ (check_region_valid env self body w Hget Hin)).
    erewrite bind_returned
      by (rewrite (get_region_info_run env self page data more _ Hstat Hdiv), Hli;
          reflexivity).
    simpl. now rewrite add_logs_add.
Qed.

Lemma empty_container_raises_type_error_witness :
  download_all_region_ridelogs
    (demo_env demo_title [] full_pages EmptyString) demo_self "." demo_world =
  (Raised TypeError,
   add_logs [] [ReqGet (region_uri demo_self); ReqGet (region_stats_uri demo_self)] []
     demo_world).
Proof.
  refine (proj2 (proj2 (empty_container_raises_type_error
                          (demo_env demo_title [] full_pages EmptyString)
                          demo_self "." demo_title "stats" "container" [] demo_world
                          _ _ _ _ _)));
    reflexivity.
Defined.

(** ** The crawl against any answers *)













(** X14. What one page contributes.  A page that answers with a single
    table contributes that table whatever its columns, a city column
    included.  A page that answers with two tables or more contributes
    exactly its tables without a city column, in the order of the page:
    possibly several, possibly none; the page counts as fetched either
    way. *)
Theorem page_selection (env : Env) (self : Self) (i : Z)
    (tables acc : list DataFrame) (w : World) :
  read_html env (ridelog_uri self i) = Ok tables ->
  tables <> [] ->
  exists picked,
    ridelog_page env self i acc w =
      (Returned (acc ++ picked),
       add_logs [] [ReadHtml (ridelog_uri self i)] [1] w) /\
    (forall t, tables = [t] -> picked = [t]) /\
    ((2 <= length tables)%nat ->
     picked = List.filter (fun df => negb (has_column "city" df)) tables /\
     (forall t, In t picked <-> In t tables /\ ~ In "city" (df_columns t)) /\
     ((forall t, In t tables -> In "city" (df_columns t)) -> picked = [])).
Proof.
  intros Hread Hne. exists (selected_tables tables).
  split; [now apply ridelog_page_ok|]. split.
  - intros t ->. reflexivity.
  - intros Hlen. unfold selected_tables.
    rewrite (proj2 (Nat.leb_le 2 (length tables)) Hlen).
    split; [reflexivity|]. split.
    + intros t. rewrite filter_In, negb_true_iff. unfold has_column.
      now rewrite mem_string_not_In.
    + intros Hall. clear Hlen Hread Hne.
      induction tables as [|t tables IH]; [reflexivity|]. simpl.
      unfold has_column at 1.
      rewrite (proj2 (mem_string_In "city" (df_columns t))) by (apply Hall; now left).
      simpl. apply IH. intros t' Ht'. apply Hall. now right.
Qed.

Lemma page_selection_witness :
  exists picked,
    ridelog_page
      (demo_env demo_title (demo_items "90") (fun _ => Ok [city_table]) EmptyString)
      demo_self 1 [] demo_world =
      (Returned ([] ++ picked),
       add_logs [] [ReadHtml (ridelog_uri demo_self 1)] [1] demo_world) /\
    (forall t, [city_table] = [t] -> picked = [t]).
Proof.
  destruct (page_selection
              (demo_env demo_title (demo_items "90") (fun _ => Ok [city_table]) EmptyString)
              demo_self 1 [city_table] [] demo_world) as (picked & Hrun & Hone & _).
  - reflexivity.
  - discriminate.
  - exists picked. split; [exact Hrun | exact Hone].
Defined.

(** ** The consolidated table *)










(** ** Page addresses *)

Lemma py_str_int_inj (i j : Z) : py_str_int i = py_str_int j -> i = j.
Proof.
  unfold py_str_int. intros Heq.
  assert (Hnil : forall z, Z.to_int z <> Decimal.Pos Decimal.Nil /\
                           Z.to_int z <> Decimal.Neg Decimal.Nil).
  { intros [|p|p]; simpl; split; try discriminate;
      intros [= H]; now apply DecimalPos.Unsigned.to_uint_nonnil in H. }
  apply DecimalZ.to_int_inj.
  assert (Hsome : Some (Z.to_int i) = Some (Z.to_int j)).
  { rewrite <- (NilEmpty.isi (Z.to_int i)) by apply Hnil.
    rewrite <- (NilEmpty.isi (Z.to_int j)) by apply Hnil.
    now rewrite Heq. }
  now injection Hsome.
Qed.

Lemma append_empty_r (s : string) : s +:+ EmptyString = s.
Proof. induction s as [|c s IH]; simpl; [reflexivity | now rewrite IH]. Qed.

(** X16. Different page numbers are fetched at different addresses, and the
    address of a ride-log page is never the address of the region page or of
    the statistics page: no page of the crawl can stand for another. *)
Theorem ridelog_uri_injective (self : Self) (i j : Z) :
  (ridelog_uri self i = ridelog_uri self j -> i = j) /\
  ridelog_uri self i <> region_uri self /\
  ridelog_uri self i <> region_stats_uri self /\
  region_uri self <> region_stats_uri self.
Proof.
  unfold ridelog_uri, region_uri, region_stats_uri. repeat split.
  - intros Heq.
    apply (inj (String.app "https://www.trailforks.com/region/")) in Heq.
    apply (inj (String.app (region self))) in Heq.
    apply (inj (String.app "/ridelogs/?viewMode=table&page=")) in Heq.
    now apply py_str_int_inj.
  - intros Heq.
    apply (inj (String.app "https://www.trailforks.com/region/")) in Heq.
    rewrite <- (append_empty_r (region self)) in Heq at 2.
    apply (inj (String.app (region self))) in Heq. discriminate Heq.
  - intros Heq.
    apply (inj (String.app "https://www.trailforks.com/region/")) in Heq.
    apply (inj (String.app (region self))) in Heq. discriminate Heq.
  - intros Heq.
    apply (inj (String.app "https://www.trailforks.com/region/")) in Heq.
    rewrite <- (append_empty_r (region self)) in Heq at 1.
    apply (inj (String.app (region self))) in Heq. discriminate Heq.
Qed.

Lemma ridelog_uri_injective_witness : 2 = 2.
Proof.
  apply (proj1 (ridelog_uri_injective demo_self 2 2)). reflexivity.
Defined.
